(** * SqlTable: a qualified reference to a SQL table

    Shallow embedding of
    [metricflow_semantics/sql/sql_table.py]: the frozen, ordered dataclass
    [SqlTable], its [__post_init__] validation, the parser [from_string],
    the adapter [from_node_relation] and the renderer [sql].

    Conventions of the embedding.
    - A Python [str] is a [string]; its characters are modelled by [ascii].
    - [Optional[str]] is [option string]; Python's [None] is [None].
    - A call that may raise returns a [result]: [OK v] for a returned
      value, [Raise e] for a raised exception.
    - The node relation is an object probed with [getattr(obj, name, None)];
      it is modelled as a finite map from attribute names to values, so
      that an attribute can be missing, [None] or a string. *)

From Stdlib Require Import Ascii String.
From stdpp Require Import base option list strings gmap.

Local Arguments String.append !_ _ / : simpl nomatch.

(** ** Exceptions and results *)

Inductive exn : Type :=
  | ValueError (db : string)
      (** raised by [__post_init__]; the message is formatted from the
          offending [db_name] and the absent [schema_name] *)
  | RuntimeError (msg : string)
      (** raised by [from_string] *)
  | TypeError.
      (** raised by an ordering comparison that Python does not support *)

Inductive result (A : Type) : Type :=
  | OK (a : A)
  | Raise (e : exn).
Arguments OK {A} a.
Arguments Raise {A} e.

Definition is_OK {A} (r : result A) : bool :=
  match r with OK _ => true | Raise _ => false end.

(** ** Python string primitives used by the module *)

Module Py.

(** [s.split(sep)] for a one-character separator: the string is cut at
    every occurrence of [sep]; the result always has one segment more
    than there are separators (so [''.split('.') == ['']]).  The branch
    for an empty recursive result is never taken, see [split_not_nil]. *)
Fixpoint split (sep : ascii) (s : string) : list string :=
  match s with
  | EmptyString => [EmptyString]
  | String c rest =>
      if Ascii.eqb c sep then EmptyString :: split sep rest
      else match split sep rest with
           | [] => [String c EmptyString]
           | seg :: segs => String c seg :: segs
           end
  end.

(** [sep.join(items)]. *)
Fixpoint join (sep : string) (items : list string) : string :=
  match items with
  | [] => EmptyString
  | [x] => x
  | x :: rest => x +:+ sep +:+ join sep rest
  end.

(** [c in s] for a one-character [c]. *)
Fixpoint contains (c : ascii) (s : string) : bool :=
  match s with
  | EmptyString => false
  | String d rest => Ascii.eqb d c || contains c rest
  end.

(** Truth value of an [Optional[str]]: [None] and [''] are falsy. *)
Definition truthy (v : option string) : bool :=
  match v with
  | None => false
  | Some EmptyString => false
  | Some (String _ _) => true
  end.

(** [a or b]: the first operand when it is truthy, else the second. *)
Definition or (a b : option string) : option string :=
  if truthy a then a else b.

(** The string held by a value already known to be truthy. *)
Definition str (v : option string) : string :=
  match v with Some s => s | None => EmptyString end.

(** [getattr(obj, name, None)]. *)
Definition getattr (obj : gmap string (option string)) (name : string)
  : option string :=
  match obj !! name with
  | Some v => v
  | None => None
  end.

End Py.

Definition dot : ascii := "."%char.

(** ** The data model *)

Inductive SqlTableType : Type :=
  | TABLE
  | VIEW.

(** The string value of each member of the enumeration. *)
Definition SqlTableType_value (t : SqlTableType) : string :=
  match t with
  | TABLE => "table"
  | VIEW => "view"
  end.

(** Fields in declaration order. *)
Record SqlTable : Type := mkSqlTable {
  schema_name : option string;
  table_name : string;
  db_name : option string;
  table_type : SqlTableType;
}.

(** [__post_init__]. *)
Definition post_init (self : SqlTable) : result unit :=
  match db_name self, schema_name self with
  | Some db, None => Raise (ValueError db)
  | _, _ => OK tt
  end.

(** The generated [__init__] followed by [__post_init__]:
    [SqlTable(schema_name, table_name, db_name, table_type)]. *)
Definition SqlTable_new (schema : option string) (table : string)
    (db : option string) (ty : SqlTableType) : result SqlTable :=
  let self := mkSqlTable schema table db ty in
  match post_init self with
  | OK _ => OK self
  | Raise e => Raise e
  end.

(** The invariant the constructor enforces. *)
Definition qualified_ok (t : SqlTable) : Prop :=
  db_name t ≠ None → schema_name t ≠ None.

(** ** [from_string] *)

Definition invalid_input_prefix : string :=
  "Invalid input for a SQL table, expected form '<schema>.<table>' or '<db>.<schema>.<table>' but got: ".

Definition invalid_input_msg (sql_str : string) : string :=
  invalid_input_prefix +:+ sql_str.

Definition from_string (sql_str : string) : result SqlTable :=
  let sql_str_split := Py.split dot sql_str in
  match sql_str_split with
  | [s0; s1] => SqlTable_new (Some s0) s1 None TABLE
  | [s0; s1; s2] => SqlTable_new (Some s1) s2 (Some s0) TABLE
  | _ => Raise (RuntimeError (invalid_input_msg sql_str))
  end.

(** ** [from_node_relation] *)

Abbreviation NodeRelation := (gmap string (option string)).

Definition nr_relation_name (node_relation : NodeRelation) : string :=
  Py.str (Py.or (Py.getattr node_relation "relation_name") (Some "")).

Definition nr_schema (node_relation : NodeRelation) : option string :=
  Py.or (Py.getattr node_relation "schema_name")
        (Py.getattr node_relation "schema").

Definition nr_db (node_relation : NodeRelation) : option string :=
  Py.or (Py.getattr node_relation "database")
    (Py.or (Py.getattr node_relation "db_name")
           (Py.getattr node_relation "database_name")).

Definition nr_identifier (node_relation : NodeRelation) : option string :=
  Py.or (Py.getattr node_relation "alias")
    (Py.or (Py.getattr node_relation "identifier")
           (Py.getattr node_relation "relation_name")).

Definition from_node_relation (node_relation : NodeRelation)
  : result SqlTable :=
  let relation_name := nr_relation_name node_relation in
  let schema := nr_schema node_relation in
  let db := nr_db node_relation in
  let identifier := nr_identifier node_relation in
  if Py.contains dot relation_name then from_string relation_name
  else if Py.truthy db && Py.truthy schema && Py.truthy identifier then
    SqlTable_new schema (Py.str identifier) db TABLE
  else if Py.truthy schema && Py.truthy identifier then
    SqlTable_new schema (Py.str identifier) None TABLE
  else if Py.truthy identifier then
    SqlTable_new None (Py.str identifier) None TABLE
  else from_string relation_name.

(** ** [sql] *)

Definition sql (self : SqlTable) : string :=
  let items : list string := [] in
  let items :=
    match db_name self with
    | Some db => items ++ [db]
    | None => items
    end in
  let items :=
    match schema_name self with
    | Some sc => items ++ [sc]
    | None => items
    end in
  let items := items ++ [table_name self] in
  Py.join "." items.

(** ** Generated comparison methods

    [@dataclass(frozen=True, order=True)] generates [__eq__] and the four
    ordering methods; each compares the tuples of the fields, in
    declaration order, with Python's tuple comparison. *)

(** The Python values a field of a [SqlTable] can hold. *)
Inductive pyval : Type :=
  | VNone
  | VStr (s : string)
  | VEnum (t : SqlTableType).

Inductive cmpop : Type := OpLt | OpLe | OpGt | OpGe.

(** [x == y]: [None] is equal to itself only, strings are equal when they
    have the same characters, enumeration members when they are the same
    member; values of different kinds are unequal. *)
Definition py_eq (x y : pyval) : bool :=
  match x, y with
  | VNone, VNone => true
  | VStr a, VStr b => String.eqb a b
  | VEnum TABLE, VEnum TABLE => true
  | VEnum VIEW, VEnum VIEW => true
  | _, _ => false
  end.

(** Strings are ordered character by character, by code point. *)
Definition str_cmp (op : cmpop) (a b : string) : bool :=
  match op, String.compare a b with
  | OpLt, Lt => true
  | OpLe, (Lt | Eq) => true
  | OpGt, Gt => true
  | OpGe, (Gt | Eq) => true
  | _, _ => false
  end.

(** [x < y], [x <= y], [x > y], [x >= y]: supported between two strings
    only; [None] and the members of a plain [Enum] define no ordering. *)
Definition py_cmp (op : cmpop) (x y : pyval) : result bool :=
  match x, y with
  | VStr a, VStr b => OK (str_cmp op a b)
  | _, _ => Raise TypeError
  end.

(** Tuple comparison: skip the leading items that are equal, compare the
    first pair of unequal items; when one tuple is exhausted, compare the
    lengths. *)
Fixpoint tuple_cmp (op : cmpop) (v w : list pyval) : result bool :=
  match v, w with
  | x :: v', y :: w' =>
      if py_eq x y then tuple_cmp op v' w' else py_cmp op x y
  | [], [] => OK match op with OpLe | OpGe => true | _ => false end
  | [], _ :: _ => OK match op with OpLt | OpLe => true | _ => false end
  | _ :: _, [] => OK match op with OpGt | OpGe => true | _ => false end
  end.

Fixpoint tuple_eq (v w : list pyval) : bool :=
  match v, w with
  | x :: v', y :: w' => py_eq x y && tuple_eq v' w'
  | [], [] => true
  | _, _ => false
  end.

Definition of_optional (v : option string) : pyval :=
  match v with Some s => VStr s | None => VNone end.

(** The tuple of the fields the generated methods compare. *)
Definition astuple (self : SqlTable) : list pyval :=
  [ of_optional (schema_name self); VStr (table_name self);
    of_optional (db_name self); VEnum (table_type self) ].

Definition SqlTable_eq (self other : SqlTable) : bool :=
  tuple_eq (astuple self) (astuple other).

Definition SqlTable_cmp (op : cmpop) (self other : SqlTable) : result bool :=
  tuple_cmp op (astuple self) (astuple other).

Definition SqlTable_lt := SqlTable_cmp OpLt.
Definition SqlTable_le := SqlTable_cmp OpLe.
Definition SqlTable_gt := SqlTable_cmp OpGt.
Definition SqlTable_ge := SqlTable_cmp OpGe.

(** ** Vocabulary of the specification

    The predicates and example values the statements below are phrased
    with. *)

(** [sub] occurs in [s]. *)
Definition includes (sub s : string) : Prop :=
  ∃ pre post, s = pre +:+ sub +:+ post.

(** The input condition as the specification words it: the string splits
    on ['.'] into exactly two or three segments, none of them empty. *)
Definition splits_into_2_or_3_nonempty (s : string) : Prop :=
  (length (Py.split dot s) = 2 ∨ length (Py.split dot s) = 3) ∧
  Forall (λ x, x ≠ "") (Py.split dot s).

Definition raises_malformed (s : string) : Prop :=
  from_string s = Raise (RuntimeError (invalid_input_msg s)).

(** A value up to truthiness: every falsy value is collapsed to [None]. *)
Definition norm (v : option string) : option string :=
  if Py.truthy v then v else None.



(** The failure condition as the specification words it: the adapter
    fails only when the descriptor has neither a qualified
    [relation_name] nor a non-empty identifier alternative. *)
Definition fails_only_without_usable_fields (nr : NodeRelation) : Prop :=
  is_OK (from_node_relation nr) = false →
  Py.contains dot (nr_relation_name nr) = false ∧
  Py.truthy (nr_identifier nr) = false.

#[global] Instance SqlTableType_eq_dec : EqDecision SqlTableType.
Proof. solve_decision. Defined.

(** [x < y] on two optional strings: supported when both are present. *)
Definition opt_lt (x y : option string) : result bool :=
  match x, y with
  | Some a, Some b => OK (String.ltb a b)
  | _, _ => Raise TypeError
  end.

(** The ordering as the specification words it, lexicographic over
    [(schema_name, table_name, db_name, table_type)] in field-declaration
    order: the first field in which the two tables differ decides. *)
Definition lt_by_first_difference (a b : SqlTable) : result bool :=
  if bool_decide (schema_name a ≠ schema_name b) then
    opt_lt (schema_name a) (schema_name b)
  else if bool_decide (table_name a ≠ table_name b) then
    OK (String.ltb (table_name a) (table_name b))
  else if bool_decide (db_name a ≠ db_name b) then
    opt_lt (db_name a) (db_name b)
  else if bool_decide (table_type a ≠ table_type b) then
    Raise TypeError
  else OK false.

Definition comparison_defined (a b : SqlTable) : Prop :=
  ∃ r, SqlTable_lt a b = OK r.

(** *** Example descriptors *)

(** A qualified [relation_name] next to conflicting other fields. *)
Definition nr_qualified : NodeRelation :=
  list_to_map
    [ ("relation_name", Some "mydb.myschema.mytable");
      ("schema_name", Some "otherschema");
      ("database", Some "otherdb");
      ("alias", Some "othertable") ].

(** [database="d"], [schema_name="s"], [alias="t"], no [relation_name]. *)
Definition nr_db_schema_alias : NodeRelation :=
  list_to_map
    [ ("database", Some "d"); ("schema_name", Some "s");
      ("alias", Some "t") ].

(** [relation_name=""], [schema="s"], [database=None], [alias="t"]. *)
Definition nr_schema_alias : NodeRelation :=
  list_to_map
    [ ("relation_name", Some ""); ("schema", Some "s");
      ("database", None); ("alias", Some "t") ].

(** Only [identifier="t"] is set. *)
Definition nr_identifier_only : NodeRelation :=
  list_to_map [ ("identifier", Some "t"); ("schema_name", Some "") ].

(** A dotted [relation_name] of four segments next to a usable schema and
    alias. *)
Definition nr_four_segments : NodeRelation :=
  list_to_map
    [ ("relation_name", Some "a.b.c.d"); ("schema_name", Some "s");
      ("alias", Some "t") ].

(** [alias] and [relation_name] disagree, [db_name] and [database_name]
    disagree, and the schema is given under its second name only. *)
Definition nr_conflicting : NodeRelation :=
  list_to_map
    [ ("relation_name", Some "orders"); ("alias", Some "o");
      ("identifier", Some "ord"); ("schema_name", None);
      ("schema", Some "s"); ("database", Some "");
      ("db_name", Some "d1"); ("database_name", Some "d2") ].

(** *** Example tables *)

Definition t_unqualified : SqlTable := mkSqlTable None "t" None TABLE.
Definition t_in_schema : SqlTable := mkSqlTable (Some "s") "t" None TABLE.
Definition v_in_schema : SqlTable := mkSqlTable (Some "s") "t" None VIEW.
Definition t_in_schema_a : SqlTable := mkSqlTable (Some "a") "t" None TABLE.
Definition t_in_schema_b : SqlTable := mkSqlTable (Some "b") "t" None TABLE.

(** *** Vocabulary of the further properties *)

(** The number of occurrences of the character [c] in [s]. *)
Fixpoint count_char (c : ascii) (s : string) : nat :=
  match s with
  | EmptyString => 0
  | String d rest => (if Ascii.eqb d c then 1 else 0) + count_char c rest
  end.

(** A name without ['.'], and a table all of whose names are such. *)
Definition dot_free (s : string) : Prop := Py.contains dot s = false.

Definition dot_free_opt (v : option string) : Prop :=
  ∀ s, v = Some s → dot_free s.

Definition names_dot_free (t : SqlTable) : Prop :=
  dot_free_opt (schema_name t) ∧ dot_free (table_name t) ∧
  dot_free_opt (db_name t).

(** The list [sql] joins: the present names, database first. *)
Definition sql_items (t : SqlTable) : list string :=
  match db_name t with Some db => [db] | None => [] end ++
  match schema_name t with Some sc => [sc] | None => [] end ++
  [table_name t].

(** The first value of a list that passes a Python truth test, [None]
    when there is none. *)
Fixpoint first_truthy (l : list (option string)) : option string :=
  match l with
  | [] => None
  | v :: l' => if Py.truthy v then v else first_truthy l'
  end.

(** Two tables qualify their name in the same way: the same optional
    fields are present in both, and they have the same table type. *)
Definition same_shape (a b : SqlTable) : Prop :=
  (schema_name a = None ↔ schema_name b = None) ∧
  (db_name a = None ↔ db_name b = None) ∧
  table_type a = table_type b.

(** * Properties *)

(** ** Splitting and joining *)

Section SplitJoin.
Variable sep : ascii.

Lemma split_not_nil (s : string) : Py.split sep s ≠ [].
Proof.
  induction s as [|c s IH]; cbn; [done|].
  destruct (Ascii.eqb c sep); [done|].
  by destruct (Py.split sep s).
Qed.

Lemma split_free (s : string) :
  Py.contains sep s = false → Py.split sep s = [s].
Proof.
  induction s as [|c s IH]; cbn; [done|].
  intros [Hc Hs]%orb_false_iff. rewrite Hc, (IH Hs). done.
Qed.

Lemma split_append (s rest : string) :
  Py.contains sep s = false →
  Py.split sep (s +:+ String sep rest) = s :: Py.split sep rest.
Proof.
  induction s as [|c s IH]; cbn.
  - intros _. by rewrite Ascii.eqb_refl.
  - intros [Hc Hs]%orb_false_iff. rewrite Hc, (IH Hs). done.
Qed.

Lemma join_cons2 (d x y : string) (l : list string) :
  Py.join d (x :: y :: l) = x +:+ d +:+ Py.join d (y :: l).
Proof. done. Qed.

Lemma join_String (d : string) (c : ascii) (x : string) (l : list string) :
  Py.join d (String c x :: l) = String c (Py.join d (x :: l)).
Proof. by destruct l. Qed.

(** Splitting undoes joining separator-free segments. *)
Lemma split_join (segs : list string) :
  segs ≠ [] →
  Forall (λ x, Py.contains sep x = false) segs →
  Py.split sep (Py.join (String sep "") segs) = segs.
Proof.
  intros Hne Hfree. induction Hfree as [|x l Hx Hl IH]; [done|].
  destruct l as [|y l].
  - by apply split_free.
  - rewrite join_cons2. cbn [String.append].
    rewrite (split_append x _ Hx). f_equal. by apply IH.
Qed.

(** Joining undoes splitting, for every string. *)
Lemma join_split (s : string) :
  Py.join (String sep "") (Py.split sep s) = s.
Proof.
  induction s as [|c s IH]; cbn [Py.split]; [done|].
  destruct (Ascii.eqb_spec c sep) as [->|Hc].
  - pose proof (split_not_nil s) as Hne.
    destruct (Py.split sep s) as [|y l]; [done|].
    rewrite join_cons2, IH. done.
  - pose proof (split_not_nil s) as Hne.
    destruct (Py.split sep s) as [|y l]; [done|].
    by rewrite join_String, IH.
Qed.

(** No segment of a split contains the separator. *)
Lemma split_segments_free (s : string) :
  Forall (λ x, Py.contains sep x = false) (Py.split sep s).
Proof.
  induction s as [|c s IH]; cbn [Py.split].
  - by constructor.
  - destruct (Ascii.eqb c sep) eqn:Hc.
    + by constructor.
    + destruct (Py.split sep s) as [|y l]; [by repeat constructor; cbn; rewrite Hc|].
      inversion IH; subst. constructor; [|done]. cbn. by rewrite Hc.
Qed.

(** A string contains the separator exactly when it splits into more
    than one segment. *)
Lemma contains_split_length (s : string) :
  Py.contains sep s = true ↔ 2 ≤ length (Py.split sep s).
Proof.
  induction s as [|c s IH]; cbn [Py.split Py.contains].
  - cbn. split; [done|lia].
  - pose proof (split_not_nil s) as Hne.
    destruct (Ascii.eqb c sep) eqn:Hc; cbn [orb].
    + split; [|done]. intros _. destruct (Py.split sep s); [done|cbn; lia].
    + rewrite IH. destruct (Py.split sep s) as [|y l]; [done|]. done.
Qed.

End SplitJoin.

(** ** The constructor *)

Lemma SqlTable_new_with_schema (sc table : string) (db : option string)
    (ty : SqlTableType) :
  SqlTable_new (Some sc) table db ty = OK (mkSqlTable (Some sc) table db ty).
Proof. by destruct db. Qed.

Lemma SqlTable_new_without_db (sc : option string) (table : string)
    (ty : SqlTableType) :
  SqlTable_new sc table None ty = OK (mkSqlTable sc table None ty).
Proof. by destruct sc. Qed.

Lemma SqlTable_new_OK (sc : option string) (table : string)
    (db : option string) (ty : SqlTableType) (t : SqlTable) :
  SqlTable_new sc table db ty = OK t →
  t = mkSqlTable sc table db ty ∧ qualified_ok t.
Proof.
  unfold SqlTable_new, post_init, qualified_ok; cbn.
  destruct db, sc; intros ?; simplify_eq; cbn; split; congruence.
Qed.

(** ** [from_string] *)

Lemma from_string_2 (s s0 s1 : string) :
  Py.split dot s = [s0; s1] →
  from_string s = OK (mkSqlTable (Some s0) s1 None TABLE).
Proof. unfold from_string. by intros ->. Qed.

Lemma from_string_3 (s s0 s1 s2 : string) :
  Py.split dot s = [s0; s1; s2] →
  from_string s = OK (mkSqlTable (Some s1) s2 (Some s0) TABLE).
Proof. unfold from_string. by intros ->. Qed.

Lemma from_string_other (s : string) :
  length (Py.split dot s) ≠ 2 → length (Py.split dot s) ≠ 3 →
  from_string s = Raise (RuntimeError (invalid_input_msg s)).
Proof.
  unfold from_string.
  destruct (Py.split dot s) as [|s0 [|s1 [|s2 [|s3 l]]]]; cbn; done.
Qed.

(** The outcome of [from_string] is decided by the number of segments. *)
Lemma from_string_outcome (s : string) :
  (∃ t, from_string s = OK t ∧ table_type t = TABLE ∧ qualified_ok t ∧
        sql t = s ∧
        (length (Py.split dot s) = 2 ∨ length (Py.split dot s) = 3)) ∨
  (from_string s = Raise (RuntimeError (invalid_input_msg s)) ∧
   length (Py.split dot s) ≠ 2 ∧ length (Py.split dot s) ≠ 3).
Proof.
  pose proof (join_split dot s) as Hjoin.
  destruct (Py.split dot s) as [|s0 [|s1 [|s2 [|s3 l]]]] eqn:Hsplit.
  - right. rewrite from_string_other; rewrite ?Hsplit; cbn; done.
  - right. rewrite from_string_other; rewrite ?Hsplit; cbn; done.
  - left. eexists. rewrite (from_string_2 _ _ _ Hsplit).
    split_and!; [done|done|by unfold qualified_ok|exact Hjoin|by left].
  - left. eexists. rewrite (from_string_3 _ _ _ _ Hsplit).
    split_and!; [done|done|by unfold qualified_ok|exact Hjoin|by right].
  - right. rewrite from_string_other; rewrite ?Hsplit; cbn; done.
Qed.

Lemma from_string_Raise (s : string) (e : exn) :
  from_string s = Raise e → e = RuntimeError (invalid_input_msg s).
Proof.
  destruct (from_string_outcome s) as [(t & Ht & _)|[Hr _]]; congruence.
Qed.

(** C5. [from_string] maps a string that splits into exactly two segments
    to the table with the first segment as schema and the second as table
    name, a string that splits into exactly three segments to the table
    with database, schema and table name in that order, and raises for
    every other number of segments (a split never yields zero segments;
    one segment and four or more are rejected). *)
Theorem from_string_by_segment_count (s : string) :
  (∀ s0 s1, Py.split dot s = [s0; s1] →
     from_string s = OK (mkSqlTable (Some s0) s1 None TABLE)) ∧
  (∀ s0 s1 s2, Py.split dot s = [s0; s1; s2] →
     from_string s = OK (mkSqlTable (Some s1) s2 (Some s0) TABLE)) ∧
  (length (Py.split dot s) ≠ 2 → length (Py.split dot s) ≠ 3 →
     from_string s = Raise (RuntimeError (invalid_input_msg s))) ∧
  length (Py.split dot s) ≠ 0.
Proof.
  repeat split.
  - apply from_string_2.
  - apply from_string_3.
  - apply from_string_other.
  - pose proof (split_not_nil dot s). by destruct (Py.split dot s).
Qed.

Lemma from_string_by_segment_count_examples :
  from_string "s.t" = OK (mkSqlTable (Some "s") "t" None TABLE) ∧
  from_string "d.s.t" = OK (mkSqlTable (Some "s") "t" (Some "d") TABLE) ∧
  from_string "" = Raise (RuntimeError (invalid_input_msg "")) ∧
  from_string "table" = Raise (RuntimeError (invalid_input_msg "table")) ∧
  from_string "a.b.c.d" = Raise (RuntimeError (invalid_input_msg "a.b.c.d")).
Proof.
  pose proof (from_string_by_segment_count "s.t") as (H2 & _).
  pose proof (from_string_by_segment_count "d.s.t") as (_ & H3 & _).
  pose proof (from_string_by_segment_count "") as (_ & _ & H0 & _).
  pose proof (from_string_by_segment_count "table") as (_ & _ & H1 & _).
  pose proof (from_string_by_segment_count "a.b.c.d") as (_ & _ & H4 & _).
  split; [exact (H2 "s" "t" eq_refl)|].
  split; [exact (H3 "d" "s" "t" eq_refl)|].
  split; [apply H0; vm_compute; lia|].
  split; [apply H1; vm_compute; lia|].
  apply H4; vm_compute; lia.
Defined.

(** C1. Round trip: for every string made of exactly two or exactly three
    non-empty, dot-free segments joined by ['.'], [from_string] succeeds
    and the [sql] rendering of its result is the string itself. *)
Theorem from_string_sql_round_trip (segs : list string) :
  length segs = 2 ∨ length segs = 3 →
  Forall (λ x, x ≠ "" ∧ Py.contains dot x = false) segs →
  ∃ t, from_string (Py.join "." segs) = OK t ∧ sql t = Py.join "." segs.
Proof.
  intros Hlen Hsegs.
  assert (Py.split dot (Py.join "." segs) = segs) as Hsplit.
  { apply split_join.
    - destruct segs; [by destruct Hlen|done].
    - eapply Forall_impl; [exact Hsegs|]. by intros x [_ ?]. }
  destruct (from_string_outcome (Py.join "." segs))
    as [(t & Ht & _ & _ & Hsql & _)|(_ & H2 & H3)].
  - by exists t.
  - rewrite Hsplit in H2, H3. by destruct Hlen.
Qed.

Lemma from_string_sql_round_trip_witness :
  ∃ t, from_string "d.s.t" = OK t ∧ sql t = "d.s.t".
Proof.
  apply (from_string_sql_round_trip ["d"; "s"; "t"]).
  - by right.
  - repeat constructor; done.
Defined.

(** *** The error raised by [from_string] *)

Lemma append_assoc (a b c : string) : (a +:+ b) +:+ c = a +:+ b +:+ c.
Proof. induction a as [|x a IH]; cbn; [done|]. by rewrite IH. Qed.

Lemma includes_append_r (sub s tail : string) :
  includes sub s → includes sub (s +:+ tail).
Proof.
  intros (pre & post & ->). exists pre, (post +:+ tail).
  by rewrite !append_assoc.
Qed.

(** C2, as stated, fails: ["."] splits into two empty segments, so it does
    not split into two or three non-empty ones, yet [from_string] accepts
    it and returns the table with empty schema and table names. *)
Lemma from_string_accepts_empty_segments :
  from_string "." = OK (mkSqlTable (Some "") "" None TABLE) ∧
  ¬ splits_into_2_or_3_nonempty "." ∧
  ¬ (raises_malformed "." ↔ ¬ splits_into_2_or_3_nonempty ".").
Proof.
  assert (¬ splits_into_2_or_3_nonempty ".") as Hno.
  { intros [_ Hall]. vm_compute in Hall. by inversion Hall. }
  split_and!; [done|done|].
  intros [_ Hraise]. specialize (Hraise Hno). discriminate Hraise.
Qed.

(** C2, amended. [from_string] raises exactly when the string does not
    split on ['.'] into two or three segments (empty segments count as
    segments); the exception is the [RuntimeError] whose message contains
    both accepted forms and ends with the offending input; in particular a
    string of two or three non-empty segments is never rejected. *)
Theorem from_string_raises_iff_segment_count (s : string) :
  (raises_malformed s ↔
     ¬ (length (Py.split dot s) = 2 ∨ length (Py.split dot s) = 3)) ∧
  (is_OK (from_string s) = false ↔ raises_malformed s) ∧
  (splits_into_2_or_3_nonempty s → is_OK (from_string s) = true) ∧
  includes "'<schema>.<table>'" (invalid_input_msg s) ∧
  includes "'<db>.<schema>.<table>'" (invalid_input_msg s) ∧
  (∃ pre, invalid_input_msg s = pre +:+ s).
Proof.
  unfold raises_malformed.
  refine (conj _ (conj _ (conj _ (conj _ (conj _ _))))).
  - destruct (from_string_outcome s) as [(t & Ht & _ & _ & _ & Hlen)|(Hr & ? & ?)].
    + rewrite Ht. split; [done|]. by intros [].
    + split; [|done]. intros _ [|]; done.
  - destruct (from_string_outcome s) as [(t & -> & _)|(-> & _)]; by split.
  - intros [Hlen _].
    destruct (from_string_outcome s) as [(t & -> & _)|(_ & ? & ?)]; [done|].
    by destruct Hlen.
  - apply includes_append_r.
    by exists "Invalid input for a SQL table, expected form ",
              " or '<db>.<schema>.<table>' but got: ".
  - apply includes_append_r.
    by exists "Invalid input for a SQL table, expected form '<schema>.<table>' or ",
              " but got: ".
  - by exists invalid_input_prefix.
Qed.

Lemma from_string_raises_iff_segment_count_witness :
  is_OK (from_string "s.t") = true ∧ raises_malformed "a.b.c.d".
Proof.
  split.
  - destruct (from_string_raises_iff_segment_count "s.t") as (_ & _ & Hok & _).
    apply Hok. split; [by left|]. by repeat constructor.
  - destruct (from_string_raises_iff_segment_count "a.b.c.d") as ([_ Hr] & _).
    apply Hr. vm_compute. intros [|]; lia.
Defined.

(** ** [from_node_relation] *)

(** A field value that passes a Python truth test is a non-empty string. *)
Lemma truthy_Some (v : option string) :
  Py.truthy v = true → ∃ c s, v = Some (String c s).
Proof. destruct v as [[|c s]|]; cbn; [done| |done]. by exists c, s. Qed.


Lemma or_truthy (a b : option string) :
  Py.truthy (Py.or a b) = Py.truthy a || Py.truthy b.
Proof. unfold Py.or. by destruct (Py.truthy a) eqn:Ha. Qed.

(** The resolved [relation_name] is the attribute when it is a non-empty
    string, and the empty string otherwise. *)
Lemma nr_relation_name_eq (nr : NodeRelation) :
  nr_relation_name nr =
    match Py.getattr nr "relation_name" with Some s => s | None => "" end.
Proof.
  unfold nr_relation_name, Py.or.
  by destruct (Py.getattr nr "relation_name") as [[|c s]|].
Qed.

(** When the resolved [relation_name] is non-empty, so is the resolved
    identifier: [relation_name] is its last alternative. *)
Lemma nr_identifier_of_relation_name (nr : NodeRelation) :
  nr_relation_name nr ≠ "" → Py.truthy (nr_identifier nr) = true.
Proof.
  rewrite nr_relation_name_eq. unfold nr_identifier.
  rewrite !or_truthy.
  destruct (Py.getattr nr "relation_name") as [[|c s]|]; cbn; [done| |done].
  intros _. by rewrite !orb_true_r.
Qed.

(** The adapter as a decision table over the resolved values. *)
Lemma from_node_relation_outcome (nr : NodeRelation) :
  from_node_relation nr =
    if Py.contains dot (nr_relation_name nr) then
      from_string (nr_relation_name nr)
    else if Py.truthy (nr_identifier nr) then
      OK (mkSqlTable
            (if Py.truthy (nr_schema nr) then nr_schema nr else None)
            (Py.str (nr_identifier nr))
            (if Py.truthy (nr_schema nr) && Py.truthy (nr_db nr)
             then nr_db nr else None)
            TABLE)
    else Raise (RuntimeError (invalid_input_msg (nr_relation_name nr))).
Proof.
  unfold from_node_relation.
  destruct (Py.contains dot (nr_relation_name nr)) eqn:Hdot; [done|].
  destruct (Py.truthy (nr_identifier nr)) eqn:Hid.
  - destruct (Py.truthy (nr_schema nr)) eqn:Hsc.
    + apply truthy_Some in Hsc as (c & s & Hsc).
      destruct (Py.truthy (nr_db nr)) eqn:Hdb; cbn; rewrite Hsc.
      * apply SqlTable_new_with_schema.
      * done.
    + rewrite !andb_false_r. cbn. apply SqlTable_new_without_db.
  - rewrite !andb_false_r.
    apply from_string_other; rewrite (split_free _ _ Hdot); cbn; lia.
Qed.

(** *** Falsy values: [None] and the empty string are interchangeable *)

Lemma truthy_norm (v : option string) : Py.truthy (norm v) = Py.truthy v.
Proof. by destruct v as [[|c s]|]. Qed.

Lemma norm_truthy (v : option string) : Py.truthy v = true → norm v = v.
Proof. unfold norm. by intros ->. Qed.

Lemma norm_or (a b : option string) :
  norm (Py.or a b) = match norm a with Some _ => norm a | None => norm b end.
Proof. by destruct a as [[|c s]|]. Qed.

Lemma str_norm (v : option string) : Py.str (norm v) = Py.str v.
Proof. by destruct v as [[|c s]|]. Qed.

Lemma from_node_relation_norm (nr : NodeRelation) :
  from_node_relation nr =
    let rn := Py.str (norm (Py.getattr nr "relation_name")) in
    if Py.contains dot rn then from_string rn
    else match norm (nr_identifier nr) with
         | Some i =>
             OK (mkSqlTable (norm (nr_schema nr)) i
                   (match norm (nr_schema nr) with
                    | Some _ => norm (nr_db nr)
                    | None => None
                    end) TABLE)
         | None => Raise (RuntimeError (invalid_input_msg rn))
         end.
Proof.
  rewrite from_node_relation_outcome. cbn zeta.
  rewrite str_norm. change (Py.str (Py.getattr nr "relation_name")) with
    (match Py.getattr nr "relation_name" with Some s => s | None => "" end).
  rewrite <- nr_relation_name_eq.
  destruct (Py.contains dot (nr_relation_name nr)); [done|].
  generalize (nr_identifier nr) (nr_schema nr) (nr_db nr).
  by intros [[|??]|] [[|??]|] [[|??]|].
Qed.

(** Two descriptors whose attributes agree up to truthiness are adapted
    to the same result. *)
Lemma from_node_relation_falsy_ext (nr nr' : NodeRelation) :
  (∀ name, norm (Py.getattr nr name) = norm (Py.getattr nr' name)) →
  from_node_relation nr = from_node_relation nr'.
Proof.
  intros Hext. rewrite !from_node_relation_norm.
  unfold nr_identifier, nr_schema, nr_db.
  by rewrite !norm_or, !Hext.
Qed.

Lemma getattr_insert (nr : NodeRelation) (k name : string)
    (v : option string) :
  Py.getattr (<[k := v]> nr) name =
    if decide (k = name) then v else Py.getattr nr name.
Proof. unfold Py.getattr. rewrite lookup_insert. by case_decide. Qed.

Lemma getattr_delete (nr : NodeRelation) (k name : string) :
  Py.getattr (delete k nr) name =
    if decide (k = name) then None else Py.getattr nr name.
Proof. unfold Py.getattr. rewrite lookup_delete. by case_decide. Qed.

Lemma from_node_relation_empty_attr (nr : NodeRelation) (k : string) :
  from_node_relation (<[k := Some ""]> nr) = from_node_relation (delete k nr) ∧
  from_node_relation (<[k := None]> nr) = from_node_relation (delete k nr).
Proof.
  split; apply from_node_relation_falsy_ext; intros name;
    rewrite getattr_insert, getattr_delete; by case_decide.
Qed.

(** C6. Qualified-name precedence: when the descriptor's [relation_name]
    contains a ['.'], [from_node_relation] returns exactly
    [from_string(relation_name)]; the other fields are ignored, so any
    descriptor with the same [relation_name] gives the same result. *)
Theorem from_node_relation_qualified (nr : NodeRelation) :
  Py.contains dot (nr_relation_name nr) = true →
  from_node_relation nr = from_string (nr_relation_name nr) ∧
  ∀ nr' : NodeRelation,
    Py.getattr nr' "relation_name" = Py.getattr nr "relation_name" →
    from_node_relation nr' = from_node_relation nr.
Proof.
  intros Hdot. split.
  - unfold from_node_relation. by rewrite Hdot.
  - intros nr' Hrn.
    assert (nr_relation_name nr' = nr_relation_name nr) as Heq
      by (by rewrite !nr_relation_name_eq, Hrn).
    unfold from_node_relation. by rewrite Heq, Hdot.
Qed.

Lemma from_node_relation_qualified_witness :
  from_node_relation nr_qualified =
    OK (mkSqlTable (Some "myschema") "mytable" (Some "mydb") TABLE).
Proof.
  destruct (from_node_relation_qualified nr_qualified) as [-> _].
  - vm_compute. reflexivity.
  - vm_compute. reflexivity.
Defined.



Lemma first_truthy_or2 (a b : option string) :
  first_truthy [a; b] = norm (Py.or a b).
Proof. by destruct a as [[|??]|], b as [[|??]|]. Qed.

Lemma first_truthy_or3 (a b c : option string) :
  first_truthy [a; b; c] = norm (Py.or a (Py.or b c)).
Proof. by destruct a as [[|??]|], b as [[|??]|], c as [[|??]|]. Qed.

(** With an undotted [relation_name] the adapter assembles the table
    from the first non-empty alternative of each name, read off the
    descriptor's attributes. *)
Lemma from_node_relation_undotted (nr : NodeRelation) :
  dot_free_opt (Py.getattr nr "relation_name") →
  from_node_relation nr =
    match first_truthy [Py.getattr nr "alias"; Py.getattr nr "identifier";
                        Py.getattr nr "relation_name"] with
    | Some i =>
        let sc := first_truthy [Py.getattr nr "schema_name";
                                Py.getattr nr "schema"] in
        OK (mkSqlTable sc i
              (match sc with
               | Some _ =>
                   first_truthy [Py.getattr nr "database";
                                 Py.getattr nr "db_name";
                                 Py.getattr nr "database_name"]
               | None => None
               end) TABLE)
    | None =>
        Raise (RuntimeError (invalid_input_msg (nr_relation_name nr)))
    end.
Proof.
  intros Hrn.
  assert (Py.contains dot (nr_relation_name nr) = false) as Hdot.
  { rewrite nr_relation_name_eq.
    destruct (Py.getattr nr "relation_name") as [rn|] eqn:E; [|done].
    by apply Hrn. }
  rewrite !first_truthy_or3, first_truthy_or2.
  rewrite from_node_relation_norm. cbn zeta. rewrite str_norm.
  change (Py.str (Py.getattr nr "relation_name")) with
    (match Py.getattr nr "relation_name" with Some s => s | None => "" end).
  by rewrite <- nr_relation_name_eq, Hdot.
Qed.

(** C7. Best-effort assembly: when the descriptor's [relation_name]
    contains no ['.'], the table is built by descending completeness from
    the descriptor's attributes.  The database is the first non-empty of
    [database], [db_name], [database_name]; the schema the first
    non-empty of [schema_name], [schema]; the identifier the first
    non-empty of [alias], [identifier], [relation_name].  Database, schema
    and identifier all present give the three-part table; otherwise schema
    and identifier present give the schema-qualified table; otherwise the
    identifier alone gives the unqualified table, with no schema.  An
    attribute holding the empty string counts as absent: it can be removed
    (or set to [None]) without changing the result. *)
Theorem from_node_relation_best_effort (nr : NodeRelation) :
  dot_free_opt (Py.getattr nr "relation_name") →
  (∀ db sc i,
     first_truthy [Py.getattr nr "database"; Py.getattr nr "db_name";
                   Py.getattr nr "database_name"] = Some db →
     first_truthy [Py.getattr nr "schema_name"; Py.getattr nr "schema"] =
       Some sc →
     first_truthy [Py.getattr nr "alias"; Py.getattr nr "identifier";
                   Py.getattr nr "relation_name"] = Some i →
     from_node_relation nr = OK (mkSqlTable (Some sc) i (Some db) TABLE)) ∧
  (∀ sc i,
     first_truthy [Py.getattr nr "database"; Py.getattr nr "db_name";
                   Py.getattr nr "database_name"] = None →
     first_truthy [Py.getattr nr "schema_name"; Py.getattr nr "schema"] =
       Some sc →
     first_truthy [Py.getattr nr "alias"; Py.getattr nr "identifier";
                   Py.getattr nr "relation_name"] = Some i →
     from_node_relation nr = OK (mkSqlTable (Some sc) i None TABLE)) ∧
  (∀ i,
     first_truthy [Py.getattr nr "schema_name"; Py.getattr nr "schema"] =
       None →
     first_truthy [Py.getattr nr "alias"; Py.getattr nr "identifier";
                   Py.getattr nr "relation_name"] = Some i →
     from_node_relation nr = OK (mkSqlTable None i None TABLE)) ∧
  (∀ db sc i,
     Py.getattr nr "database" = Some db → db ≠ "" →
     Py.getattr nr "schema_name" = Some sc → sc ≠ "" →
     Py.getattr nr "alias" = Some i → i ≠ "" →
     from_node_relation nr = OK (mkSqlTable (Some sc) i (Some db) TABLE)) ∧
  (∀ k,
     from_node_relation (<[k := Some ""]> nr) = from_node_relation (delete k nr) ∧
     from_node_relation (<[k := None]> nr) = from_node_relation (delete k nr)).
Proof.
  intros Hrn. rewrite (from_node_relation_undotted nr Hrn).
  refine (conj _ (conj _ (conj _ (conj _ _)))).
  - by intros db sc i -> -> ->.
  - by intros sc i -> -> ->.
  - by intros i -> ->.
  - intros db sc i -> Hdb -> Hsc -> Hi.
    by destruct db, sc, i.
  - apply from_node_relation_empty_attr.
Qed.

Lemma from_node_relation_best_effort_witness :
  from_node_relation nr_db_schema_alias =
    OK (mkSqlTable (Some "s") "t" (Some "d") TABLE) ∧
  from_node_relation nr_conflicting =
    OK (mkSqlTable (Some "s") "o" (Some "d1") TABLE) ∧
  from_node_relation nr_schema_alias =
    OK (mkSqlTable (Some "s") "t" None TABLE) ∧
  from_node_relation nr_identifier_only =
    OK (mkSqlTable None "t" None TABLE).
Proof.
  split_and!.
  - destruct (from_node_relation_best_effort nr_db_schema_alias)
      as (_ & _ & _ & H3 & _); [by intros s; vm_compute|].
    by apply H3.
  - destruct (from_node_relation_best_effort nr_conflicting)
      as (H3 & _); [by intros s; vm_compute; intros [= <-]|].
    apply H3; by vm_compute.
  - destruct (from_node_relation_best_effort nr_schema_alias)
      as (_ & H2 & _); [by intros s; vm_compute; intros [= <-]|].
    apply H2; by vm_compute.
  - destruct (from_node_relation_best_effort nr_identifier_only)
      as (_ & _ & H1 & _); [by intros s; vm_compute|].
    apply H1; by vm_compute.
Defined.

(** C8, as stated, fails: a descriptor whose [relation_name] is
    ["a.b.c.d"] is rejected although its [schema_name] and [alias] would
    assemble into a table reference. *)
Lemma from_node_relation_rejects_four_segments :
  from_node_relation nr_four_segments =
    Raise (RuntimeError (invalid_input_msg "a.b.c.d")) ∧
  Py.truthy (nr_schema nr_four_segments) = true ∧
  Py.truthy (nr_identifier nr_four_segments) = true ∧
  ¬ fails_only_without_usable_fields nr_four_segments.
Proof.
  refine (conj _ (conj _ (conj _ _))); [by vm_compute..|].
  intros Hclaim. destruct Hclaim as [Hdot _]; [by vm_compute|].
  vm_compute in Hdot. discriminate Hdot.
Qed.

(** C8, amended. [from_node_relation] tolerates absent fields: it fails
    exactly when [relation_name] contains a ['.'] without splitting into
    two or three segments, or when [relation_name] contains no ['.'] and
    none of [alias], [identifier] and [relation_name] is a non-empty
    string; every failure is the error of [from_string] on
    [relation_name], never the constructor's validation error. *)
Theorem from_node_relation_fails_iff (nr : NodeRelation) :
  (is_OK (from_node_relation nr) = false ↔
     4 ≤ length (Py.split dot (nr_relation_name nr)) ∨
     (Py.contains dot (nr_relation_name nr) = false ∧
      Py.truthy (Py.getattr nr "alias") = false ∧
      Py.truthy (Py.getattr nr "identifier") = false ∧
      Py.truthy (Py.getattr nr "relation_name") = false)) ∧
  (∀ e, from_node_relation nr = Raise e →
     e = RuntimeError (invalid_input_msg (nr_relation_name nr)) ∧
     from_string (nr_relation_name nr) = Raise e).
Proof.
  rewrite from_node_relation_outcome.
  pose proof (contains_split_length dot (nr_relation_name nr)) as Hlen.
  assert (Py.truthy (nr_identifier nr) = false ↔
          Py.truthy (Py.getattr nr "alias") = false ∧
          Py.truthy (Py.getattr nr "identifier") = false ∧
          Py.truthy (Py.getattr nr "relation_name") = false) as Hid.
  { unfold nr_identifier. rewrite !or_truthy, !orb_false_iff. done. }
  destruct (Py.contains dot (nr_relation_name nr)) eqn:Hdot.
  - assert (2 ≤ length (Py.split dot (nr_relation_name nr))) as H2
      by by apply Hlen.
    destruct (from_string_outcome (nr_relation_name nr))
      as [(t & Ht & _ & _ & _ & Hl)|(Hr & Hn2 & Hn3)].
    + rewrite Ht. split; [|done]. cbn. split; [done|].
      intros [?|[? _]]; [lia|done].
    + rewrite Hr. split; [|by intros e [= <-]]. cbn. split; [|done].
      intros _. left. lia.
  - assert (length (Py.split dot (nr_relation_name nr)) = 1) as H1
      by by rewrite (split_free _ _ Hdot).
    destruct (Py.truthy (nr_identifier nr)) eqn:Hi.
    + split; [|done]. cbn. split; [done|].
      intros [?|[_ Hf]]; [lia|]. apply Hid in Hf. done.
    + split.
      * cbn. split; [|done]. intros _. right. split; [done|]. by apply Hid.
      * intros e [= <-]. split; [done|].
        apply from_string_other; lia.
Qed.

Lemma from_node_relation_fails_iff_witness :
  is_OK (from_node_relation ∅) = false ∧
  is_OK (from_node_relation nr_four_segments) = false ∧
  from_string (nr_relation_name nr_four_segments) =
    Raise (RuntimeError (invalid_input_msg "a.b.c.d")).
Proof.
  split_and!.
  - apply (proj1 (from_node_relation_fails_iff ∅)). right. by vm_compute.
  - apply (proj1 (from_node_relation_fails_iff nr_four_segments)).
    left. vm_compute. lia.
  - by apply (proj2 (from_node_relation_fails_iff nr_four_segments)).
Defined.

(** C4. Constructing a [SqlTable] with [db_name] present and
    [schema_name] absent raises the validation error at construction, for
    every table name, database name and table type; hence every table a
    constructor returns satisfies [db_name present ⇒ schema_name present],
    whether it was built directly, by [from_string] or by
    [from_node_relation]. *)
Theorem db_name_requires_schema_name :
  (∀ table db ty,
     SqlTable_new None table (Some db) ty = Raise (ValueError db)) ∧
  (∀ sc table db ty t,
     SqlTable_new sc table db ty = OK t →
     t = mkSqlTable sc table db ty ∧ qualified_ok t) ∧
  (∀ s t, from_string s = OK t → qualified_ok t) ∧
  (∀ nr t, from_node_relation nr = OK t → qualified_ok t).
Proof.
  split_and!.
  - done.
  - apply SqlTable_new_OK.
  - intros s t Ht.
    destruct (from_string_outcome s) as [(t' & Ht' & _ & Hq & _)|[Hr _]];
      [rewrite Ht in Ht'; by simplify_eq | congruence].
  - intros nr t. rewrite from_node_relation_outcome.
    destruct (Py.contains dot (nr_relation_name nr)).
    + intros Ht.
      destruct (from_string_outcome (nr_relation_name nr))
        as [(t' & Ht' & _ & Hq & _)|[Hr _]];
        [rewrite Ht in Ht'; by simplify_eq | congruence].
    + destruct (Py.truthy (nr_identifier nr)); [|done].
      intros [= <-]. unfold qualified_ok. cbn.
      destruct (Py.truthy (nr_schema nr)) eqn:Hsc; [|done].
      apply truthy_Some in Hsc as (c & s & ->). done.
Qed.

Lemma db_name_requires_schema_name_witness :
  SqlTable_new None "t" (Some "d") VIEW = Raise (ValueError "d") ∧
  qualified_ok (mkSqlTable (Some "s") "t" (Some "d") TABLE) ∧
  qualified_ok (mkSqlTable None "t" None TABLE).
Proof.
  destruct db_name_requires_schema_name as (Hraise & Hnew & Hstr & Hnr).
  split_and!.
  - apply Hraise.
  - apply (Hstr "d.s.t"). reflexivity.
  - apply (Hnr nr_identifier_only). vm_compute. reflexivity.
Defined.

(** C10. Every table returned by [from_string] or by
    [from_node_relation] has the default table type [TABLE]; neither
    returns a [VIEW]. *)
Theorem parsed_tables_have_type_TABLE :
  (∀ s t, from_string s = OK t → table_type t = TABLE) ∧
  (∀ nr t, from_node_relation nr = OK t → table_type t = TABLE) ∧
  (∀ s t, from_string s = OK t → table_type t ≠ VIEW) ∧
  (∀ nr t, from_node_relation nr = OK t → table_type t ≠ VIEW).
Proof.
  assert (∀ s t, from_string s = OK t → table_type t = TABLE) as Hstr.
  { intros s t Ht.
    destruct (from_string_outcome s) as [(t' & Ht' & Hty & _)|[Hr _]];
      congruence. }
  assert (∀ nr t, from_node_relation nr = OK t → table_type t = TABLE)
    as Hnr.
  { intros nr t. rewrite from_node_relation_outcome.
    destruct (Py.contains dot (nr_relation_name nr)); [apply Hstr|].
    destruct (Py.truthy (nr_identifier nr)); [|done]. by intros [= <-]. }
  split_and!; [done|done|..].
  - intros s t Ht. by rewrite (Hstr s t Ht).
  - intros nr t Ht. by rewrite (Hnr nr t Ht).
Qed.

Lemma parsed_tables_have_type_TABLE_witness :
  table_type (mkSqlTable (Some "s") "t" (Some "d") TABLE) = TABLE ∧
  table_type (mkSqlTable (Some "s") "t" None TABLE) = TABLE.
Proof.
  destruct parsed_tables_have_type_TABLE as (Hstr & Hnr & _).
  split.
  - apply (Hstr "d.s.t"). reflexivity.
  - apply (Hnr nr_schema_alias). vm_compute. reflexivity.
Defined.

(** ** Generated equality and ordering *)

(** *** The order on strings *)

Lemma str_compare_refl (s : string) : String.compare s s = Eq.
Proof.
  induction s as [|c s IH]; cbn; [done|].
  unfold Ascii.compare. by rewrite N.compare_refl.
Qed.

Lemma str_compare_Eq (a b : string) : String.compare a b = Eq ↔ a = b.
Proof.
  split; [apply String.compare_eq_iff|]. intros ->. apply str_compare_refl.
Qed.

Lemma str_compare_Gt (a b : string) :
  String.compare a b = Gt ↔ String.compare b a = Lt.
Proof.
  rewrite (String.compare_antisym b a).
  destruct (String.compare a b); cbn; split; congruence.
Qed.

Lemma str_compare_Lt_trans (a b c : string) :
  String.compare a b = Lt → String.compare b c = Lt →
  String.compare a c = Lt.
Proof.
  revert b c. induction a as [|x a IH]; intros [|y b] [|z c]; cbn; try done.
  destruct (Ascii.compare x y) eqn:Hxy; [|..|done].
  - apply Ascii.compare_eq_iff in Hxy as ->.
    destruct (Ascii.compare y z); [apply IH|done..].
  - intros _. destruct (Ascii.compare y z) eqn:Hyz; [|..|done].
    + apply Ascii.compare_eq_iff in Hyz as <-. by rewrite Hxy.
    + intros _. unfold Ascii.compare in *.
      apply N.compare_lt_iff in Hxy, Hyz.
      assert ((N_of_ascii x ?= N_of_ascii z)%N = Lt) as ->; [|done].
      apply N.compare_lt_iff. by etrans.
Qed.

(** *** Values *)

Lemma py_eq_spec (x y : pyval) : reflect (x = y) (py_eq x y).
Proof.
  destruct x as [|a|[]], y as [|b|[]]; cbn; try (by constructor).
  destruct (String.eqb_spec a b); constructor; congruence.
Qed.

Lemma py_eq_refl (x : pyval) : py_eq x x = true.
Proof. by destruct (py_eq_spec x x). Qed.

Lemma py_eq_sym (x y : pyval) : py_eq x y = py_eq y x.
Proof. destruct (py_eq_spec x y), (py_eq_spec y x); congruence. Qed.

Lemma py_lt_trans (x y z : pyval) :
  py_cmp OpLt x y = OK true → py_cmp OpLt y z = OK true →
  py_cmp OpLt x z = OK true ∧ py_eq x z = false.
Proof.
  destruct x as [|a|], y as [|b|], z as [|c|]; cbn; try done.
  unfold str_cmp.
  destruct (String.compare a b) eqn:Hab; try done.
  destruct (String.compare b c) eqn:Hbc; try done. intros _ _.
  pose proof (str_compare_Lt_trans _ _ _ Hab Hbc) as Hac. rewrite Hac.
  split; [done|]. destruct (String.eqb_spec a c) as [->|]; [|done].
  by rewrite str_compare_refl in Hac.
Qed.

(** Two unequal values are ordered one way or the other, or not at all. *)
Lemma py_lt_trichotomy (x y : pyval) :
  py_eq x y = false →
  (py_cmp OpLt x y = OK true ∧ py_cmp OpLt y x = OK false) ∨
  (py_cmp OpLt x y = OK false ∧ py_cmp OpLt y x = OK true) ∨
  (py_cmp OpLt x y = Raise TypeError ∧ py_cmp OpLt y x = Raise TypeError).
Proof.
  destruct x as [|a|], y as [|b|]; cbn; try (by intros; right; right).
  intros Hne%String.eqb_neq. unfold str_cmp.
  rewrite (String.compare_antisym b a).
  destruct (String.compare a b) eqn:Hab; cbn.
  - by apply str_compare_Eq in Hab.
  - by left.
  - right. by left.
Qed.

Lemma py_gt_lt (x y : pyval) : py_cmp OpGt x y = py_cmp OpLt y x.
Proof.
  destruct x as [|a|], y as [|b|]; cbn; try done. unfold str_cmp.
  rewrite (String.compare_antisym b a). by destruct (String.compare a b).
Qed.

Lemma py_ge_le (x y : pyval) : py_cmp OpGe x y = py_cmp OpLe y x.
Proof.
  destruct x as [|a|], y as [|b|]; cbn; try done. unfold str_cmp.
  rewrite (String.compare_antisym b a). by destruct (String.compare a b).
Qed.

Lemma py_le_lt (x y : pyval) :
  py_eq x y = false → py_cmp OpLe x y = py_cmp OpLt x y.
Proof.
  destruct x as [|a|], y as [|b|]; cbn; try done.
  intros Hne%String.eqb_neq. unfold str_cmp.
  destruct (String.compare a b) eqn:Hab; try done.
  by apply str_compare_Eq in Hab.
Qed.

(** *** Tuples *)

Lemma tuple_eq_spec (v w : list pyval) : reflect (v = w) (tuple_eq v w).
Proof.
  revert w. induction v as [|x v IH]; intros [|y w]; cbn;
    try (by constructor).
  destruct (py_eq_spec x y) as [->|]; cbn; [|constructor; congruence].
  destruct (IH w); constructor; congruence.
Qed.

Lemma tuple_lt_irrefl (v : list pyval) : tuple_cmp OpLt v v = OK false.
Proof. induction v as [|x v IH]; cbn; [done|]. by rewrite py_eq_refl. Qed.

Lemma tuple_lt_trans (u v w : list pyval) :
  tuple_cmp OpLt u v = OK true → tuple_cmp OpLt v w = OK true →
  tuple_cmp OpLt u w = OK true.
Proof.
  revert v w. induction u as [|x u IH]; intros [|y v] [|z w]; cbn; try done.
  destruct (py_eq_spec x y) as [->|Hxy].
  - destruct (py_eq y z); [apply IH|done].
  - destruct (py_eq_spec y z) as [<-|Hyz].
    + destruct (py_eq_spec x y); done.
    + intros Hlt1 Hlt2.
      destruct (py_lt_trans _ _ _ Hlt1 Hlt2) as [Hlt ->]. done.
Qed.

Lemma tuple_lt_trichotomy (v w : list pyval) :
  length v = length w → v ≠ w →
  (tuple_cmp OpLt v w = OK true ∧ tuple_cmp OpLt w v = OK false) ∨
  (tuple_cmp OpLt v w = OK false ∧ tuple_cmp OpLt w v = OK true) ∨
  (tuple_cmp OpLt v w = Raise TypeError ∧
   tuple_cmp OpLt w v = Raise TypeError).
Proof.
  revert w. induction v as [|x v IH]; intros [|y w]; cbn; try done.
  intros [= Hlen] Hne. rewrite (py_eq_sym y x).
  destruct (py_eq_spec x y) as [->|Hxy].
  - apply IH; [done|]. congruence.
  - apply py_lt_trichotomy. by destruct (py_eq_spec x y).
Qed.

Lemma tuple_gt_lt (v w : list pyval) :
  tuple_cmp OpGt v w = tuple_cmp OpLt w v.
Proof.
  revert w. induction v as [|x v IH]; intros [|y w]; cbn; try done.
  rewrite (py_eq_sym y x). destruct (py_eq x y); [apply IH|apply py_gt_lt].
Qed.

Lemma tuple_ge_le (v w : list pyval) :
  tuple_cmp OpGe v w = tuple_cmp OpLe w v.
Proof.
  revert w. induction v as [|x v IH]; intros [|y w]; cbn; try done.
  rewrite (py_eq_sym y x). destruct (py_eq x y); [apply IH|apply py_ge_le].
Qed.

Lemma tuple_le_lt (v w : list pyval) :
  tuple_cmp OpLe v w =
    if tuple_eq v w then OK true else tuple_cmp OpLt v w.
Proof.
  revert w. induction v as [|x v IH]; intros [|y w]; cbn; try done.
  destruct (py_eq x y) eqn:Hxy; cbn; [apply IH|by apply py_le_lt].
Qed.

(** *** Tables *)

Lemma astuple_inj (a b : SqlTable) : astuple a = astuple b → a = b.
Proof.
  destruct a as [sa ta da ya], b as [sb tb db yb]. unfold astuple; cbn.
  intros [= Hs -> Hd ->]. f_equal.
  - by destruct sa, sb; simplify_eq.
  - by destruct da, db; simplify_eq.
Qed.

Lemma SqlTable_eq_spec (a b : SqlTable) : reflect (a = b) (SqlTable_eq a b).
Proof.
  unfold SqlTable_eq. destruct (tuple_eq_spec (astuple a) (astuple b)) as [H|H].
  - constructor. by apply astuple_inj.
  - constructor. by intros ->.
Qed.

Lemma str_cmp_ltb (a b : string) : str_cmp OpLt a b = String.ltb a b.
Proof. unfold str_cmp, String.ltb. by destruct (String.compare a b). Qed.

Lemma of_optional_eq (x y : option string) :
  py_eq (of_optional x) (of_optional y) = bool_decide (x = y).
Proof.
  destruct x as [a|], y as [b|]; cbn; try done.
  destruct (String.eqb_spec a b) as [->|Hne].
  - by rewrite bool_decide_eq_true_2.
  - rewrite bool_decide_eq_false_2; [done|]. congruence.
Qed.

Lemma of_optional_lt (x y : option string) :
  py_cmp OpLt (of_optional x) (of_optional y) = opt_lt x y.
Proof. destruct x, y; cbn; by rewrite ?str_cmp_ltb. Qed.

Lemma SqlTable_lt_by_first_difference (a b : SqlTable) :
  SqlTable_lt a b = lt_by_first_difference a b.
Proof.
  destruct a as [sa ta da ya], b as [sb tb db yb].
  unfold SqlTable_lt, SqlTable_cmp, lt_by_first_difference, astuple.
  cbn [tuple_cmp schema_name table_name db_name table_type].
  rewrite (of_optional_eq sa sb), (of_optional_eq da db).
  rewrite (of_optional_lt sa sb), (of_optional_lt da db).
  rewrite !bool_decide_not.
  destruct (bool_decide (sa = sb)); cbn [negb]; [|done].
  cbn [py_eq py_cmp]. rewrite str_cmp_ltb.
  destruct (String.eqb_spec ta tb) as [->|Hne].
  - rewrite (bool_decide_eq_true_2 (tb = tb)) by done. cbn [negb].
    destruct (bool_decide (da = db)); cbn [negb]; [|done].
    by destruct ya, yb.
  - by rewrite (bool_decide_eq_false_2 (ta = tb)) by done.
Qed.

(** C9. Two [SqlTable] values with identical [schema_name], [table_name],
    [db_name] and [table_type] compare equal, whichever constructor
    produced them. *)
Theorem SqlTable_eq_identical_fields (a b : SqlTable) :
  schema_name a = schema_name b → table_name a = table_name b →
  db_name a = db_name b → table_type a = table_type b →
  SqlTable_eq a b = true.
Proof.
  intros Hs Ht Hd Hy.
  assert (a = b) as -> by (destruct a, b; cbn in *; congruence).
  by destruct (SqlTable_eq_spec b b).
Qed.

Lemma SqlTable_eq_identical_fields_witness :
  ∃ a b c,
    SqlTable_new (Some "s") "t" None TABLE = OK a ∧
    from_string "s.t" = OK b ∧
    from_node_relation nr_schema_alias = OK c ∧
    SqlTable_eq a b = true ∧ SqlTable_eq b c = true.
Proof.
  eexists _, _, _.
  split; [reflexivity|]. split; [reflexivity|].
  split; [vm_compute; reflexivity|].
  split; apply SqlTable_eq_identical_fields; reflexivity.
Defined.

(** C3, as stated, fails: the comparison is not defined on every pair of
    distinct tables, and an absent [schema_name] does not sort before a
    present one.  Comparing the unqualified table [t] with the table [s.t]
    raises [TypeError] in both directions, and so does comparing two
    tables that differ in [table_type] only. *)
Lemma SqlTable_lt_absent_schema_raises :
  SqlTable_new None "t" None TABLE = OK t_unqualified ∧
  SqlTable_new (Some "s") "t" None TABLE = OK t_in_schema ∧
  t_unqualified ≠ t_in_schema ∧
  SqlTable_lt t_unqualified t_in_schema = Raise TypeError ∧
  SqlTable_lt t_in_schema t_unqualified = Raise TypeError ∧
  SqlTable_lt t_in_schema v_in_schema = Raise TypeError ∧
  ¬ comparison_defined t_unqualified t_in_schema.
Proof.
  split_and!; try done.
  intros [r Hr]. discriminate Hr.
Qed.

(** C3, amended. Comparison of [SqlTable] values is the lexicographic
    comparison of [(schema_name, table_name, db_name, table_type)] in
    field-declaration order, decided by the first field in which the two
    tables differ.  It is irreflexive and transitive; two distinct tables
    are either ordered in exactly one direction, or their comparison
    raises [TypeError] in both directions, which happens exactly when the
    deciding field holds an absent value on either side or is
    [table_type].  [>], [<=] and [>=] agree with [<]. *)
Theorem SqlTable_lt_partial_strict_order :
  (∀ a b, SqlTable_lt a b = lt_by_first_difference a b) ∧
  (∀ a, SqlTable_lt a a = OK false) ∧
  (∀ a b c, SqlTable_lt a b = OK true → SqlTable_lt b c = OK true →
     SqlTable_lt a c = OK true) ∧
  (∀ a b, a ≠ b →
     (SqlTable_lt a b = OK true ∧ SqlTable_lt b a = OK false) ∨
     (SqlTable_lt a b = OK false ∧ SqlTable_lt b a = OK true) ∨
     (SqlTable_lt a b = Raise TypeError ∧
      SqlTable_lt b a = Raise TypeError)) ∧
  (∀ a b, SqlTable_gt a b = SqlTable_lt b a ∧
          SqlTable_ge a b = SqlTable_le b a ∧
          SqlTable_le a b =
            if SqlTable_eq a b then OK true else SqlTable_lt a b).
Proof.
  split_and!.
  - apply SqlTable_lt_by_first_difference.
  - intros a. apply tuple_lt_irrefl.
  - intros a b c. apply tuple_lt_trans.
  - intros a b Hne. apply tuple_lt_trichotomy; [done|].
    intros Heq. by apply Hne, astuple_inj.
  - intros a b. split_and!.
    + apply tuple_gt_lt.
    + apply tuple_ge_le.
    + apply tuple_le_lt.
Qed.

Lemma SqlTable_lt_partial_strict_order_witness :
  SqlTable_lt t_in_schema_a t_in_schema = OK true ∧
  SqlTable_lt t_in_schema t_in_schema_a = OK false ∧
  SqlTable_lt t_unqualified t_in_schema = Raise TypeError.
Proof.
  destruct SqlTable_lt_partial_strict_order as (Hlex & _ & Htrans & Htri & _).
  split_and!.
  - apply (Htrans t_in_schema_a t_in_schema_b t_in_schema); reflexivity.
  - destruct (Htri t_in_schema t_in_schema_a) as [[H _]|[[H _]|[H _]]];
      [done|discriminate H|exact H|discriminate H].
  - rewrite Hlex. reflexivity.
Defined.

(** * Further properties *)

(** ** Parsing and rendering *)

Lemma split_length_count (sep : ascii) (s : string) :
  length (Py.split sep s) = S (count_char sep s).
Proof.
  induction s as [|c s IH]; cbn [Py.split count_char]; [done|].
  destruct (Ascii.eqb c sep); cbn [length]; [by rewrite IH|].
  pose proof (split_not_nil sep s) as Hne.
  destruct (Py.split sep s) as [|y l]; [done|]. exact IH.
Qed.

(** Closes [names_dot_free] goals on concrete tables. *)
Ltac names_free :=
  unfold names_dot_free, dot_free_opt, dot_free; cbn;
  repeat apply conj; (done || by intros ? [= <-]).

Lemma sql_join (t : SqlTable) : sql t = Py.join "." (sql_items t).
Proof. unfold sql, sql_items. by destruct (db_name t), (schema_name t). Qed.

Lemma sql_items_dot_free (t : SqlTable) :
  names_dot_free t →
  Forall (λ x, Py.contains dot x = false) (sql_items t).
Proof.
  intros (Hsc & Htn & Hdb). unfold sql_items.
  destruct (db_name t) as [db|] eqn:Edb, (schema_name t) as [sc|] eqn:Esc;
    cbn; repeat constructor; try done.
  all: try (by apply Hdb); try (by apply Hsc).
Qed.

(** Splitting the rendering of a table with dot-free names gives back the
    names it was joined from. *)
Lemma split_sql (t : SqlTable) :
  names_dot_free t → Py.split dot (sql t) = sql_items t.
Proof.
  intros Hfree. rewrite sql_join. apply split_join.
  - unfold sql_items. by destruct (db_name t), (schema_name t).
  - by apply sql_items_dot_free.
Qed.

(** [sql] is a left inverse of [from_string] on every accepted string,
    empty segments included; hence [from_string] is injective. *)
Theorem sql_after_from_string (s : string) (t : SqlTable) :
  from_string s = OK t →
  sql t = s ∧ ∀ s', from_string s' = OK t → s' = s.
Proof.
  intros Ht.
  assert (∀ u, from_string u = OK t → sql t = u) as Hinv.
  { intros u Hu.
    destruct (from_string_outcome u) as [(t' & Ht' & _ & _ & Hsql & _)|[Hr _]];
      [|congruence].
    rewrite Hu in Ht'. by simplify_eq. }
  split; [by apply Hinv|].
  intros s' Hs'. by rewrite <- (Hinv s' Hs'), <- (Hinv s Ht).
Qed.

Lemma sql_after_from_string_witness :
  sql (mkSqlTable (Some "") "t" (Some "d") TABLE) = "d..t" ∧
  ∀ s', from_string s' = OK (mkSqlTable (Some "") "t" (Some "d") TABLE) →
        s' = "d..t".
Proof. apply (sql_after_from_string "d..t"). reflexivity. Defined.

(** [from_string] accepts a string exactly when it contains one or two
    ['.'] characters. *)
Theorem from_string_accepts_iff_dot_count (s : string) :
  is_OK (from_string s) = true ↔
  count_char dot s = 1 ∨ count_char dot s = 2.
Proof.
  pose proof (split_length_count dot s) as Hlen.
  destruct (from_string_outcome s) as [(t & -> & _ & _ & _ & Hl)|(-> & H2 & H3)];
    cbn.
  - split; [intros _; lia|done].
  - split; [done|]. lia.
Qed.

(** Every table returned by [from_string] has a schema, and none of its
    names contains a ['.']. *)
Theorem from_string_names_dot_free (s : string) (t : SqlTable) :
  from_string s = OK t →
  schema_name t ≠ None ∧ names_dot_free t.
Proof.
  intros Ht. pose proof (split_segments_free dot s) as Hfree.
  unfold from_string in Ht.
  destruct (Py.split dot s) as [|s0 [|s1 [|s2 [|s3 l]]]]; try done.
  - rewrite SqlTable_new_with_schema in Ht. simplify_eq.
    apply Forall_cons in Hfree as [H0 [H1 _]%Forall_cons].
    split; [done|]. unfold names_dot_free, dot_free_opt, dot_free; cbn.
    split_and!; [by intros ? [= <-]|done|done].
  - rewrite SqlTable_new_with_schema in Ht. simplify_eq.
    apply Forall_cons in Hfree as [H0 [H1 [H2 _]%Forall_cons]%Forall_cons].
    split; [done|]. unfold names_dot_free, dot_free_opt, dot_free; cbn.
    split_and!; [by intros ? [= <-]|done|by intros ? [= <-]].
Qed.

Lemma from_string_names_dot_free_witness :
  schema_name (mkSqlTable (Some "s") "t" None TABLE) ≠ None ∧
  names_dot_free (mkSqlTable (Some "s") "t" None TABLE).
Proof. apply (from_string_names_dot_free "s.t"). reflexivity. Defined.

(** Parsing the rendering of a valid table with dot-free names: a table
    with a schema is parsed back with its three names, its table type
    reset to [TABLE]; an unqualified table renders to its bare table name,
    which [from_string] rejects. *)
Theorem from_string_after_sql (t : SqlTable) :
  qualified_ok t → names_dot_free t →
  from_string (sql t) =
    match schema_name t with
    | Some sc => OK (mkSqlTable (Some sc) (table_name t) (db_name t) TABLE)
    | None => Raise (RuntimeError (invalid_input_msg (table_name t)))
    end.
Proof.
  intros Hq Hfree. pose proof (split_sql t Hfree) as Hsplit.
  destruct t as [[sc|] tn [db|] ty]; unfold sql_items in Hsplit;
    cbn in Hsplit |- *.
  - by rewrite (from_string_3 _ _ _ _ Hsplit).
  - by rewrite (from_string_2 _ _ _ Hsplit).
  - exfalso. by apply Hq.
  - change (sql (mkSqlTable None tn None ty)) with tn in *.
    apply from_string_other; rewrite Hsplit; cbn; lia.
Qed.

Lemma from_string_after_sql_witness :
  from_string (sql v_in_schema) = OK t_in_schema ∧
  from_string (sql t_unqualified) =
    Raise (RuntimeError (invalid_input_msg "t")).
Proof.
  split.
  - apply (from_string_after_sql v_in_schema); [by cbv|names_free].
  - apply (from_string_after_sql t_unqualified); [by cbv|names_free].
Defined.

(** Among valid tables with dot-free names the rendering is unambiguous:
    two tables with the same [sql] have the same schema, table and
    database names. *)
Theorem sql_unambiguous (a b : SqlTable) :
  qualified_ok a → qualified_ok b →
  names_dot_free a → names_dot_free b →
  sql a = sql b →
  schema_name a = schema_name b ∧ table_name a = table_name b ∧
  db_name a = db_name b.
Proof.
  intros Hqa Hqb Ha Hb Hsql.
  assert (sql_items a = sql_items b) as Hitems
    by by rewrite <- !split_sql, Hsql.
  destruct a as [[sa|] ta [da|] ya], b as [[sb|] tb [db|] yb];
    unfold sql_items in Hitems; cbn in Hitems |- *; simplify_eq; try done.
  all: exfalso; (by apply Hqa) || (by apply Hqb).
Qed.

Lemma sql_unambiguous_witness :
  schema_name v_in_schema = schema_name t_in_schema ∧
  table_name v_in_schema = table_name t_in_schema ∧
  db_name v_in_schema = db_name t_in_schema.
Proof.
  apply sql_unambiguous; [by cbv|by cbv|names_free|names_free|done].
Defined.

(** ** The adapter *)

Lemma norm_Some_nonempty (v : option string) (s : string) :
  norm v = Some s → s ≠ "".
Proof. destruct v as [[|??]|]; cbn; congruence. Qed.

(** The assembly path, read off a successful result. *)
Lemma from_node_relation_assembled (nr : NodeRelation) (t : SqlTable) :
  Py.contains dot (nr_relation_name nr) = false →
  from_node_relation nr = OK t →
  norm (nr_identifier nr) = Some (table_name t) ∧
  schema_name t = norm (nr_schema nr) ∧
  db_name t =
    match schema_name t with Some _ => norm (nr_db nr) | None => None end ∧
  table_type t = TABLE.
Proof.
  intros Hdot. rewrite from_node_relation_norm. cbn zeta.
  rewrite str_norm.
  change (Py.str (Py.getattr nr "relation_name")) with
    (match Py.getattr nr "relation_name" with Some s => s | None => "" end).
  rewrite <- nr_relation_name_eq, Hdot.
  destruct (norm (nr_identifier nr)) as [i|]; [|done].
  by intros [= <-].
Qed.

(** In the assembly path the first non-empty alternative of each name
    wins: [alias], then [identifier], then [relation_name] for the table
    name; [schema_name], then [schema] for the schema; [database], then
    [db_name], then [database_name] for the database, which is kept only
    next to a schema. *)
Theorem from_node_relation_precedence (nr : NodeRelation) (t : SqlTable) :
  Py.contains dot (nr_relation_name nr) = false →
  from_node_relation nr = OK t →
  first_truthy [Py.getattr nr "alias"; Py.getattr nr "identifier";
                Py.getattr nr "relation_name"] = Some (table_name t) ∧
  first_truthy [Py.getattr nr "schema_name"; Py.getattr nr "schema"] =
    schema_name t ∧
  match schema_name t with
  | Some _ =>
      first_truthy [Py.getattr nr "database"; Py.getattr nr "db_name";
                    Py.getattr nr "database_name"]
  | None => None
  end = db_name t.
Proof.
  intros Hdot Ht.
  destruct (from_node_relation_assembled nr t Hdot Ht) as (Hi & Hsc & Hdb & _).
  rewrite !first_truthy_or3, first_truthy_or2. by rewrite Hdb, Hsc.
Qed.

Lemma from_node_relation_precedence_witness :
  first_truthy [Py.getattr nr_conflicting "alias";
                Py.getattr nr_conflicting "identifier";
                Py.getattr nr_conflicting "relation_name"] = Some "o" ∧
  first_truthy [Py.getattr nr_conflicting "schema_name";
                Py.getattr nr_conflicting "schema"] = Some "s" ∧
  first_truthy [Py.getattr nr_conflicting "database";
                Py.getattr nr_conflicting "db_name";
                Py.getattr nr_conflicting "database_name"] = Some "d1".
Proof.
  apply (from_node_relation_precedence nr_conflicting
           (mkSqlTable (Some "s") "o" (Some "d1") TABLE)).
  - vm_compute. reflexivity.
  - vm_compute. reflexivity.
Defined.

(** A table assembled from the descriptor's parts never has an empty
    name: its table name is non-empty, and so are its schema and database
    names when present. *)
Theorem from_node_relation_names_nonempty (nr : NodeRelation)
    (t : SqlTable) :
  Py.contains dot (nr_relation_name nr) = false →
  from_node_relation nr = OK t →
  table_name t ≠ "" ∧ schema_name t ≠ Some "" ∧ db_name t ≠ Some "".
Proof.
  intros Hdot Ht.
  destruct (from_node_relation_assembled nr t Hdot Ht) as (Hi & Hsc & Hdb & _).
  split_and!.
  - by apply norm_Some_nonempty in Hi.
  - intros Heq. rewrite Heq in Hsc. symmetry in Hsc.
    by apply norm_Some_nonempty in Hsc.
  - intros Heq. rewrite Heq in Hdb.
    destruct (schema_name t); [|done]. symmetry in Hdb.
    by apply norm_Some_nonempty in Hdb.
Qed.

Lemma from_node_relation_names_nonempty_witness :
  table_name (mkSqlTable (Some "s") "t" None TABLE) ≠ "" ∧
  schema_name (mkSqlTable (Some "s") "t" None TABLE) ≠ Some "" ∧
  db_name (mkSqlTable (Some "s") "t" None TABLE) ≠ Some "".
Proof.
  apply (from_node_relation_names_nonempty nr_schema_alias).
  - vm_compute. reflexivity.
  - vm_compute. reflexivity.
Defined.



(** ** Equality and ordering *)

(** Two tables compare equal exactly when all four fields are identical;
    the table type takes part in the comparison although [sql] does not
    render it. *)
Theorem SqlTable_eq_iff_fields (a b : SqlTable) :
  SqlTable_eq a b = true ↔
  schema_name a = schema_name b ∧ table_name a = table_name b ∧
  db_name a = db_name b ∧ table_type a = table_type b.
Proof.
  destruct (SqlTable_eq_spec a b) as [->|Hne]; split; try done.
  intros (Hs & Ht & Hd & Hy). exfalso. apply Hne.
  destruct a, b; cbn in *; congruence.
Qed.

Lemma SqlTable_lt_defined (a b : SqlTable) :
  same_shape a b → ∃ r, SqlTable_lt a b = OK r.
Proof.
  intros (Hsc & Hdb & Hty). rewrite SqlTable_lt_by_first_difference.
  unfold lt_by_first_difference.
  destruct a as [sa ta da ya], b as [sb tb db yb]; cbn in *. subst yb.
  assert (∀ x y : option string, x ≠ y → (x = None ↔ y = None) →
            ∃ r, opt_lt x y = OK r) as Hopt.
  { intros [x|] [y|] Hne [H1 H2]; cbn; [by eexists|..].
    - by specialize (H2 eq_refl).
    - by specialize (H1 eq_refl).
    - done. }
  repeat case_bool_decide; try done; try (by eexists); by apply Hopt.
Qed.

(** Tables that qualify their name in the same way are totally ordered:
    their comparison is defined, and two distinct ones are ordered in
    exactly one direction. *)
Theorem SqlTable_lt_total_on_same_shape (a b : SqlTable) :
  same_shape a b →
  (∃ r, SqlTable_lt a b = OK r) ∧
  (a ≠ b →
     (SqlTable_lt a b = OK true ∧ SqlTable_lt b a = OK false) ∨
     (SqlTable_lt a b = OK false ∧ SqlTable_lt b a = OK true)).
Proof.
  intros Hshape. destruct (SqlTable_lt_defined a b Hshape) as [r Hr].
  split; [by exists r|]. intros Hne.
  destruct (tuple_lt_trichotomy (astuple a) (astuple b)) as [H|[H|[H _]]].
  - done.
  - intros Heq. by apply Hne, astuple_inj.
  - by left.
  - by right.
  - unfold SqlTable_lt, SqlTable_cmp in Hr. congruence.
Qed.

Lemma SqlTable_lt_total_on_same_shape_witness :
  (∃ r, SqlTable_lt t_in_schema_b t_in_schema_a = OK r) ∧
  (t_in_schema_b ≠ t_in_schema_a →
     (SqlTable_lt t_in_schema_b t_in_schema_a = OK true ∧
      SqlTable_lt t_in_schema_a t_in_schema_b = OK false) ∨
     (SqlTable_lt t_in_schema_b t_in_schema_a = OK false ∧
      SqlTable_lt t_in_schema_a t_in_schema_b = OK true)).
Proof. apply SqlTable_lt_total_on_same_shape. by cbv. Defined.

(** Tables parsed by [from_string] from strings with the same number of
    dots can always be compared; a two-part and a three-part table with
    the same schema and table names cannot: their comparison raises
    [TypeError]. *)
Theorem from_string_results_comparison (s1 s2 : string) (a b : SqlTable) :
  from_string s1 = OK a → from_string s2 = OK b →
  (count_char dot s1 = count_char dot s2 →
     ∃ r, SqlTable_lt a b = OK r) ∧
  (count_char dot s1 ≠ count_char dot s2 →
     schema_name a = schema_name b → table_name a = table_name b →
     SqlTable_lt a b = Raise TypeError).
Proof.
  intros Ha Hb.
  pose proof (split_length_count dot s1) as Hl1.
  pose proof (split_length_count dot s2) as Hl2.
  unfold from_string in Ha, Hb.
  destruct (Py.split dot s1) as [|x0 [|x1 [|x2 [|x3 l1]]]]; try done;
    destruct (Py.split dot s2) as [|y0 [|y1 [|y2 [|y3 l2]]]]; try done;
    rewrite SqlTable_new_with_schema in Ha, Hb; simplify_eq;
    cbn in Hl1, Hl2.
  - split; [|lia]. intros _. apply SqlTable_lt_defined.
    unfold same_shape; cbn. naive_solver.
  - split; [lia|]. cbn [schema_name table_name]. intros _ [= ->] ->.
    rewrite SqlTable_lt_by_first_difference. unfold lt_by_first_difference.
    cbn. repeat case_bool_decide; done.
  - split; [lia|]. cbn [schema_name table_name]. intros _ [= ->] ->.
    rewrite SqlTable_lt_by_first_difference. unfold lt_by_first_difference.
    cbn. repeat case_bool_decide; done.
  - split; [|lia]. intros _. apply SqlTable_lt_defined.
    unfold same_shape; cbn. naive_solver.
Qed.

Lemma from_string_results_comparison_witness :
  (∃ r, SqlTable_lt (mkSqlTable (Some "s") "t" None TABLE)
          (mkSqlTable (Some "s") "u" None TABLE) = OK r) ∧
  SqlTable_lt (mkSqlTable (Some "s") "t" None TABLE)
    (mkSqlTable (Some "s") "t" (Some "d") TABLE) = Raise TypeError.
Proof.
  split.
  - apply (from_string_results_comparison "s.t" "s.u"); reflexivity.
  - apply (from_string_results_comparison "s.t" "d.s.t");
      [reflexivity|reflexivity|by vm_compute|reflexivity|reflexivity].
Defined.

(** [<=] is antisymmetric, and [<] is stronger than [<=] and excludes
    equality. *)
Theorem SqlTable_le_antisym (a b : SqlTable) :
  (SqlTable_le a b = OK true → SqlTable_le b a = OK true → a = b) ∧
  (SqlTable_lt a b = OK true →
     SqlTable_le a b = OK true ∧ SqlTable_eq a b = false).
Proof.
  assert (∀ x y, SqlTable_le x y =
            if SqlTable_eq x y then OK true else SqlTable_lt x y) as Hle
    by (intros; apply tuple_le_lt).
  assert (SqlTable_lt b b = OK false) as Hirr by apply tuple_lt_irrefl.
  rewrite !Hle. split.
  - destruct (SqlTable_eq_spec a b) as [->|Hne]; [done|].
    destruct (SqlTable_eq_spec b a) as [->|_]; [done|].
    intros H1 H2.
    destruct (tuple_lt_trichotomy (astuple a) (astuple b))
      as [[_ H]|[[H _]|[H _]]].
    + done.
    + intros Heq. by apply Hne, astuple_inj.
    + unfold SqlTable_lt, SqlTable_cmp in H2. congruence.
    + unfold SqlTable_lt, SqlTable_cmp in H1. congruence.
    + unfold SqlTable_lt, SqlTable_cmp in H1. congruence.
  - intros Hlt. destruct (SqlTable_eq_spec a b) as [->|Hne]; [|done].
    congruence.
Qed.

Lemma SqlTable_le_antisym_witness :
  SqlTable_le t_in_schema_a t_in_schema_b = OK true ∧
  SqlTable_eq t_in_schema_a t_in_schema_b = false.
Proof.
  apply (SqlTable_le_antisym t_in_schema_a t_in_schema_b). reflexivity.
Defined.

(** ** The adapter's fallback and its round trip with [sql] *)

(** When the assembly path fails, the resolved [relation_name] is the
    empty string: the final fallback to [from_string] is reached with
    empty input only, and always raises, echoing that empty input. *)
Theorem from_node_relation_fallback_empty (nr : NodeRelation) (e : exn) :
  Py.contains dot (nr_relation_name nr) = false →
  from_node_relation nr = Raise e →
  nr_relation_name nr = "" ∧ e = RuntimeError (invalid_input_msg "").
Proof.
  intros Hdot. rewrite from_node_relation_outcome, Hdot.
  destruct (Py.truthy (nr_identifier nr)) eqn:Hi; [done|].
  intros [= <-].
  destruct (decide (nr_relation_name nr = "")) as [->|Hne]; [done|].
  apply nr_identifier_of_relation_name in Hne. congruence.
Qed.

Lemma from_node_relation_fallback_empty_witness :
  nr_relation_name ∅ = "" ∧
  RuntimeError (invalid_input_msg "") = RuntimeError (invalid_input_msg "").
Proof.
  apply (from_node_relation_fallback_empty ∅); vm_compute; reflexivity.
Defined.

Lemma sql_contains_dot (t : SqlTable) :
  names_dot_free t → schema_name t ≠ None →
  Py.contains dot (sql t) = true.
Proof.
  intros Hfree Hsc. apply contains_split_length. rewrite (split_sql t Hfree).
  unfold sql_items. destruct (db_name t), (schema_name t); cbn; try done; lia.
Qed.

(** The adapter inverts [sql]: for a valid table of type [TABLE] with
    dot-free names, a descriptor whose [relation_name] is the table's
    rendering is adapted back to the table.  With a schema this holds
    whatever the other fields of the descriptor are; an unqualified table
    with a non-empty name is recovered from a descriptor holding the
    [relation_name] alone. *)
Theorem from_node_relation_of_rendering (t : SqlTable) :
  qualified_ok t → names_dot_free t → table_type t = TABLE →
  (schema_name t ≠ None →
     ∀ nr : NodeRelation,
       from_node_relation (<["relation_name" := Some (sql t)]> nr) = OK t) ∧
  (schema_name t = None → table_name t ≠ "" →
     from_node_relation
       (<["relation_name" := Some (sql t)]> (∅ : NodeRelation)) = OK t).
Proof.
  intros Hq Hfree Hty. split.
  - intros Hsc nr.
    assert (nr_relation_name (<["relation_name" := Some (sql t)]> nr) = sql t)
      as Hrn by (by rewrite nr_relation_name_eq, getattr_insert;
                 case_decide).
    unfold from_node_relation.
    rewrite Hrn, (sql_contains_dot t Hfree Hsc).
    pose proof (split_sql t Hfree) as Hsplit.
    revert Hsplit. generalize (sql t). intros s Hsplit.
    destruct t as [[sc|] tn [db|] ty]; [..|done|done];
      unfold sql_items in Hsplit; cbn in Hsplit, Hty; subst ty.
    + by rewrite (from_string_3 _ _ _ _ Hsplit).
    + by rewrite (from_string_2 _ _ _ Hsplit).
  - intros Hsc Htn. destruct t as [sc tn db ty]; cbn in Hsc, Htn, Hty.
    subst sc ty. destruct db as [db|]; [exfalso; by apply Hq|].
    change (sql (mkSqlTable None tn None TABLE)) with tn.
    destruct Hfree as (_ & Hdot & _); unfold dot_free in Hdot; cbn in Hdot.
    rewrite from_node_relation_outcome.
    unfold nr_relation_name, nr_identifier, nr_schema, nr_db.
    rewrite !getattr_insert.
    repeat (case_decide; [done|]). repeat (case_decide; [|done]).
    destruct tn as [|c tn]; [done|]. cbn [Py.or Py.truthy Py.str].
    cbn in Hdot |- *. by rewrite Hdot.
Qed.

Lemma from_node_relation_of_rendering_witness :
  from_node_relation
    (<["relation_name" := Some (sql t_in_schema)]> nr_conflicting) =
    OK t_in_schema ∧
  from_node_relation
    (<["relation_name" := Some (sql t_unqualified)]> (∅ : NodeRelation)) =
    OK t_unqualified.
Proof.
  split.
  - destruct (from_node_relation_of_rendering t_in_schema) as [H _];
      [by cbv|names_free|by cbv|].
    apply H. by cbv.
  - destruct (from_node_relation_of_rendering t_unqualified) as [_ H];
      [by cbv|names_free|by cbv|].
    apply H; by cbv.
Defined.
